(** * neopixel-utils: the strip of pixels and its byte buffer

    A shallow embedding of [src/neopixel-utils.js].  The module exports one
    factory, [Strip(pixelCount)], returning an object with two data
    properties ([buffer], [pixelCount]) and four methods ([setPixelColor],
    [getPixelColor], [off], [on]).  The methods mutate [this.buffer] in
    place and may throw, so they are modelled in a state-and-exception
    monad over the record of the two data properties.

    Numbers are modelled by [Z] (indices, channel values and offsets are
    integers; the rounding of doubles beyond 2^53 is not modelled), the
    buffer by the list of its bytes.  Whether the runtime hands out a
    buffer of a given size (the size is within Node's maximum length and
    the memory is there) is a parameter of the model, [available]. *)

From Stdlib Require Import ZArith Lia.
From stdpp Require Import base list list_numbers strings.

Local Open Scope Z_scope.

(** ** JavaScript completions *)

(** The exceptions the module can raise, named after the JavaScript error
    class and the place that raises it.  In the words of the
    specification, [RangeError_offset] is IndexOutOfRange,
    [RangeError_value] is InvalidChannelValue and [TypeError_null] is how
    UnresolvableColor shows. *)
Inductive exn : Type :=
  | RangeError_size             (* new Buffer(size): size negative or not available *)
  | RangeError_value            (* writeUInt8: value outside 0..255 *)
  | RangeError_offset           (* writeUInt8/readUInt8: offset outside the buffer *)
  | TypeError_null              (* colorArray[k] when colorArray is null *)
  | TypeError_not_a_function.   (* call of a property that is undefined *)

Inductive completion (A : Type) : Type :=
  | Normal (a : A)
  | Throw (e : exn).
Arguments Normal {A} a.
Arguments Throw {A} e.

(** ** Node's Buffer, as far as the module uses it *)

Module Buffer.

(** The bytes of a buffer, in order. *)
Abbreviation t := (list Z) (only parsing).

(** [new Buffer(size)]: [size] bytes of whatever the allocator hands out
    ([uninit] gives the byte found at each position; recent versions of
    Node zero the memory, older ones do not).  A negative size is
    refused, and so is a size the runtime cannot serve ([available size]
    is false: the size is above the maximum length of a buffer, or the
    allocation fails); both are RangeErrors. *)
Definition create (available : Z -> bool) (uninit : nat -> Z) (size : Z)
  : completion t :=
  if size <? 0 then Throw RangeError_size
  else if available size
       then Normal (map (fun k => uninit k mod 256) (seq 0 (Z.to_nat size)))
       else Throw RangeError_size.

(** [buf[i]]: the byte at an integer index, [undefined] (here [None])
    outside [0 .. length-1]. *)
Definition get_index (i : Z) (buf : t) : option Z :=
  if 0 <=? i then buf !! Z.to_nat i else None.

(** [buf[i] = v] on a Uint8Array: [v] is converted to a byte, and an
    index outside the array is ignored. *)
Definition set_index (i v : Z) (buf : t) : t :=
  if 0 <=? i then <[Z.to_nat i := v mod 256]> buf else buf.

(** [buf.writeUInt8(value, offset)], called without [noAssert], as Node 10
    and later run it: the value is checked first
    ([value > max || value < min] throws ERR_OUT_OF_RANGE; earlier
    versions throw a TypeError at the same place), then the offset
    ([buf[offset] === undefined] raises the bounds error, ERR_OUT_OF_RANGE
    or, on an empty buffer, ERR_BUFFER_OUT_OF_BOUNDS, both RangeErrors),
    then the byte is stored; the result is [offset + 1]. *)
Definition writeUInt8 (value offset : Z) (buf : t) : completion Z * t :=
  if (value >? 255) || (value <? 0) then (Throw RangeError_value, buf)
  else match get_index offset buf with
       | None => (Throw RangeError_offset, buf)
       | Some _ => (Normal (offset + 1), set_index offset value buf)
       end.

(** [buf.readUInt8(offset)]: the byte at [offset], or the bounds error. *)
Definition readUInt8 (offset : Z) (buf : t) : completion Z :=
  match get_index offset buf with
  | None => Throw RangeError_offset
  | Some v => Normal v
  end.

(** A method that reads the buffer, when the property is defined. *)
Definition reader : Type := option (Z -> t -> completion Z).

(** [buf.read]: neither [Buffer.prototype] nor [Uint8Array.prototype]
    has a property of this name (the byte readers are [readUInt8] and
    its siblings), so the lookup yields [undefined]. *)
Definition read : reader := None.

End Buffer.

(** ** The strip object and its monad *)

Record strip : Type := mkStrip {
  buffer : Buffer.t;
  pixelCount : Z
}.

(** A method body: it runs on the object, ends normally or by a throw, and
    leaves the object in the state it reached. *)
Definition M (A : Type) : Type := strip -> completion A * strip.

#[global] Instance M_ret : MRet M := fun A a s => (Normal a, s).

#[global] Instance M_bind : MBind M := fun A B f m s =>
  match m s with
  | (Normal a, s') => f a s'
  | (Throw e, s') => (Throw e, s')
  end.

Definition throw {A : Type} (e : exn) : M A := fun s => (Throw e, s).

(** [for (let i = start; i < start + n; i++) body(i)], for a body that
    does not assign the bound. *)
Fixpoint for_loop (n : nat) (i : Z) (body : Z -> M unit) : M unit :=
  match n with
  | O => mret tt
  | S n' => body i ;; for_loop n' (i + 1) body
  end.

(** [this.buffer.writeUInt8(value, offset)] *)
Definition buffer_writeUInt8 (value offset : Z) : M Z := fun s =>
  let '(r, b) := Buffer.writeUInt8 value offset (buffer s) in
  (r, mkStrip b (pixelCount s)).

(** [obj.buffer[i] = v] *)
Definition buffer_set_index (i v : Z) : M unit := fun s =>
  (Normal tt, mkStrip (Buffer.set_index i v (buffer s)) (pixelCount s)).

(** [this.buffer.m(arg)] for a reading method [m]: calling [undefined]
    raises a TypeError. *)
Definition buffer_call (m : Buffer.reader) (arg : Z) : M Z := fun s =>
  match m with
  | None => (Throw TypeError_not_a_function, s)
  | Some f => (f arg (buffer s), s)
  end.

(** ** Colors *)

(** A color is an array [[R, G, B]] of three integers, of any size, or a
    string. *)
Inductive ColorInput : Type :=
  | ColorArray (r g b : Z)
  | ColorString (text : string).

Definition rgb : Type := (Z * Z * Z)%type.

(** [colorArray[k]] for k = 0, 1, 2; [colorArray] is [null] (here [None])
    when color-string could not parse the string. *)
Definition channel (colorArray : option rgb) (k : nat) : M Z :=
  match colorArray with
  | None => throw TypeError_null
  | Some (r, g, b) => mret (match k with O => r | 1%nat => g | _ => b end)
  end.

Definition byte_range (v : Z) : Prop := 0 <= v <= 255.

#[global] Instance byte_range_dec (v : Z) : Decision (byte_range v).
Proof. unfold byte_range. apply _. Defined.

Definition byte_triple (c : rgb) : Prop :=
  let '(r, g, b) := c in byte_range r /\ byte_range g /\ byte_range b.

Section Strip.

(** [colorString.get.rgb] of the color-string package: the channels of
    the color a string denotes, or [null]. *)
Variable get_rgb : string -> option rgb.

(** The sizes of buffer the runtime can allocate. *)
Variable available : Z -> bool.

(** The contents of freshly allocated memory. *)
Variable uninit : nat -> Z.

Definition colorArray_of (color : ColorInput) : option rgb :=
  match color with
  | ColorString text => get_rgb text
  | ColorArray r g b => Some (r, g, b)
  end.

Definition setPixelColor (index : Z) (color : ColorInput) : M unit :=
  let colorArray := colorArray_of color in
  c0 ← channel colorArray 0; buffer_writeUInt8 c0 (index * 3) ;;
  c1 ← channel colorArray 1; buffer_writeUInt8 c1 (index * 3 + 1) ;;
  c2 ← channel colorArray 2; buffer_writeUInt8 c2 (index * 3 + 2) ;;
  mret tt.

(** [getPixelColor] with the method it calls on the buffer left open. *)
Definition getPixelColor_via (m : Buffer.reader) (index : Z) : M rgb :=
  r ← buffer_call m (index * 3);
  g ← buffer_call m (index * 3 + 1);
  b ← buffer_call m (index * 3 + 2);
  mret (r, g, b).

(** The source calls [this.buffer.read]. *)
Definition getPixelColor (index : Z) : M rgb :=
  getPixelColor_via Buffer.read index.

Definition off : M unit := fun s =>
  let color := ColorArray 0 0 0 in
  for_loop (Z.to_nat (pixelCount s)) 0 (fun i => setPixelColor i color) s.

Definition on (color : ColorInput) : M unit := fun s =>
  for_loop (Z.to_nat (pixelCount s)) 0 (fun i => setPixelColor i color) s.

(** [Strip(pixelCount)]: allocate, then zero the buffer. *)
Definition Strip (pixelCount : Z) : completion strip :=
  match Buffer.create available uninit (pixelCount * 3) with
  | Throw e => Throw e
  | Normal b =>
      let obj := mkStrip b pixelCount in
      Normal (snd (for_loop (Z.to_nat (pixelCount * 3)) 0
                     (fun i => buffer_set_index i 0) obj))
  end.

(** *** The object over its lifetime *)

(** The relation between the two data properties. *)
Definition strip_inv (s : strip) : Prop :=
  Z.of_nat (length (buffer s)) = pixelCount s * 3.

(** A method call on the object, and the state it leaves behind, whether
    it returns or throws. *)
Inductive call : Type :=
  | Call_setPixelColor (index : Z) (color : ColorInput)
  | Call_getPixelColor (index : Z)
  | Call_off
  | Call_on (color : ColorInput).

Definition perform (s : strip) (c : call) : strip :=
  match c with
  | Call_setPixelColor index color => snd (setPixelColor index color s)
  | Call_getPixelColor index => snd (getPixelColor index s)
  | Call_off => snd (off s)
  | Call_on color => snd (on color s)
  end.

(** *** [off] as the specification words it

    One call of [setPixelColor(i, [0,0,0])] for every [i] of
    [0 .. pixelCount-1], in increasing order; a call that throws ends
    the sequence. *)
Fixpoint call_each (body : Z -> M unit) (indices : list Z) : M unit :=
  match indices with
  | [] => mret tt
  | i :: rest => body i ;; call_each body rest
  end.

Definition off_as_calls : M unit := fun s =>
  call_each (fun i => setPixelColor i (ColorArray 0 0 0))
            (seqZ 0 (pixelCount s)) s.

End Strip.

(** *** What a method leaves untouched

    [keeps R m]: whatever the outcome of [m], the state it leaves is
    related by [R] to the state it started from. *)
Definition keeps {A : Type} (R : strip -> strip -> Prop) (m : M A) : Prop :=
  forall s, R s (snd (m s)).

(** Same [pixelCount], same buffer length. *)
Definition same_shape (s s' : strip) : Prop :=
  pixelCount s' = pixelCount s /\ length (buffer s') = length (buffer s).

(** Same [pixelCount], and the same byte at every offset not in [touched]. *)
Definition same_outside (touched : Z -> Prop) (s s' : strip) : Prop :=
  pixelCount s' = pixelCount s /\
  forall j, ~ touched j ->
    Buffer.get_index j (buffer s') = Buffer.get_index j (buffer s).

(** The three offsets of a pixel. *)
Definition offsets_of (index : Z) (j : Z) : Prop :=
  j = index * 3 \/ j = index * 3 + 1 \/ j = index * 3 + 2.

(** The pixel stored at an index: the three bytes at its offsets. *)
Definition pixel (buf : Buffer.t) (index : Z) : option rgb :=
  r ← Buffer.get_index (index * 3) buf;
  g ← Buffer.get_index (index * 3 + 1) buf;
  b ← Buffer.get_index (index * 3 + 2) buf;
  Some (r, g, b).

(** The buffer of [n] pixels of one color. *)
Definition filled (n : nat) (c : rgb) : Buffer.t :=
  let '(r, g, b) := c in concat (replicate n [r; g; b]).

(** A color the strip can store: it resolves, and to a triple of bytes. *)
Definition storable (get_rgb : string -> option rgb) (color : ColorInput)
  : Prop :=
  exists r g b,
    colorArray_of get_rgb color = Some (r, g, b) /\ byte_triple (r, g, b).

(** A small resolver, a runtime that serves up to 4 GiB and a junk memory
    to run the module on. *)
Module Demo.

Definition get_rgb (text : string) : option rgb :=
  if String.eqb text "blue" then Some (0, 0, 255)
  else if String.eqb text "#ff0000" then Some (255, 0, 0)
  else None.

Definition available (size : Z) : bool := size <=? 2 ^ 32.

Definition uninit (k : nat) : Z := 171 + Z.of_nat k.

Definition strip3 : strip := mkStrip [1; 2; 3; 4; 5; 6; 7; 8; 9] 3.

End Demo.

(** * Properties *)

(** ** The monad and the buffer *)

Ltac unfold_M := unfold mbind, M_bind, mret, M_ret, throw in *.

Lemma get_index_inside (i : Z) (buf : Buffer.t) :
  0 <= i < Z.of_nat (length buf) ->
  exists v, Buffer.get_index i buf = Some v.
Proof.
  intros [H0 H1]. unfold Buffer.get_index.
  destruct (Z.leb_spec 0 i) as [_|]; [|lia].
  destruct (lookup_lt_is_Some_2 buf (Z.to_nat i)) as [v Hv]; [lia|].
  exists v. exact Hv.
Qed.

Lemma get_index_outside (i : Z) (buf : Buffer.t) :
  i < 0 \/ Z.of_nat (length buf) <= i ->
  Buffer.get_index i buf = None.
Proof.
  intros H. unfold Buffer.get_index.
  destruct (Z.leb_spec 0 i) as [H0|]; [|reflexivity].
  apply lookup_ge_None_2. lia.
Qed.

Lemma get_index_set_index_ne (i j v : Z) (buf : Buffer.t) :
  i <> j ->
  Buffer.get_index j (Buffer.set_index i v buf) = Buffer.get_index j buf.
Proof.
  intros Hne. unfold Buffer.get_index, Buffer.set_index.
  destruct (Z.leb_spec 0 j) as [Hj|]; [|reflexivity].
  destruct (Z.leb_spec 0 i) as [Hi|]; [|reflexivity].
  apply list_lookup_insert_ne. lia.
Qed.

Lemma set_index_length (i v : Z) (buf : Buffer.t) :
  length (Buffer.set_index i v buf) = length buf.
Proof.
  unfold Buffer.set_index. destruct (0 <=? i); [apply length_insert | reflexivity].
Qed.

Lemma byte_range_check (v : Z) :
  byte_range v -> (v >? 255) || (v <? 0) = false.
Proof. unfold byte_range. intros H. apply orb_false_iff. lia. Qed.

Lemma not_byte_range_check (v : Z) :
  ~ byte_range v -> (v >? 255) || (v <? 0) = true.
Proof. unfold byte_range. intros H. apply orb_true_iff. lia. Qed.

Lemma writeUInt8_stores (value offset : Z) (buf : Buffer.t) :
  byte_range value -> 0 <= offset < Z.of_nat (length buf) ->
  Buffer.writeUInt8 value offset buf
  = (Normal (offset + 1), <[Z.to_nat offset := value]> buf).
Proof.
  intros Hv Ho. unfold Buffer.writeUInt8.
  rewrite (byte_range_check _ Hv).
  destruct (get_index_inside offset buf Ho) as [w ->].
  unfold Buffer.set_index. destruct (Z.leb_spec 0 offset); [|lia].
  rewrite Z.mod_small; [reflexivity | unfold byte_range in Hv; lia].
Qed.

Lemma writeUInt8_bad_value (value offset : Z) (buf : Buffer.t) :
  ~ byte_range value ->
  Buffer.writeUInt8 value offset buf = (Throw RangeError_value, buf).
Proof.
  intros Hv. unfold Buffer.writeUInt8. now rewrite (not_byte_range_check _ Hv).
Qed.

Lemma writeUInt8_bad_offset (value offset : Z) (buf : Buffer.t) :
  byte_range value -> offset < 0 \/ Z.of_nat (length buf) <= offset ->
  Buffer.writeUInt8 value offset buf = (Throw RangeError_offset, buf).
Proof.
  intros Hv Ho. unfold Buffer.writeUInt8.
  rewrite (byte_range_check _ Hv). now rewrite (get_index_outside _ _ Ho).
Qed.

Lemma writeUInt8_length (value offset : Z) (buf : Buffer.t) :
  length (snd (Buffer.writeUInt8 value offset buf)) = length buf.
Proof.
  unfold Buffer.writeUInt8.
  destruct ((value >? 255) || (value <? 0)); [reflexivity|].
  destruct (Buffer.get_index offset buf); [apply set_index_length | reflexivity].
Qed.

Lemma writeUInt8_frame (value offset j : Z) (buf : Buffer.t) :
  j <> offset ->
  Buffer.get_index j (snd (Buffer.writeUInt8 value offset buf))
  = Buffer.get_index j buf.
Proof.
  intros Hne. unfold Buffer.writeUInt8.
  destruct ((value >? 255) || (value <? 0)); [reflexivity|].
  destruct (Buffer.get_index offset buf); [|reflexivity].
  apply get_index_set_index_ne. congruence.
Qed.

(** ** Frame rules for the monad *)

Section Keeps.

Variable R : strip -> strip -> Prop.
Hypothesis R_refl : forall s, R s s.
Hypothesis R_trans : forall s1 s2 s3, R s1 s2 -> R s2 s3 -> R s1 s3.

Lemma keeps_ret {A : Type} (a : A) : keeps R (mret a).
Proof. intros s. apply R_refl. Qed.

Lemma keeps_throw {A : Type} (e : exn) : keeps R (@throw A e).
Proof. intros s. apply R_refl. Qed.

Lemma keeps_bind {A B : Type} (m : M A) (f : A -> M B) :
  keeps R m -> (forall a, keeps R (f a)) -> keeps R (m ≫= f).
Proof.
  intros Hm Hf s. unfold_M. specialize (Hm s).
  destruct (m s) as [[a|e] s1]; simpl in *; [|exact Hm].
  eapply R_trans; [exact Hm | apply Hf].
Qed.

Lemma keeps_for_loop (body : Z -> M unit) (n : nat) (i : Z) :
  (forall k, keeps R (body k)) -> keeps R (for_loop n i body).
Proof.
  intros Hbody. revert i.
  induction n as [|n IH]; intros i; simpl.
  - apply keeps_ret.
  - apply keeps_bind; [apply Hbody | intros _; apply IH].
Qed.

Lemma keeps_channel (colorArray : option rgb) (k : nat) :
  keeps R (channel colorArray k).
Proof.
  unfold channel. destruct colorArray as [[[r g] b]|];
    [apply keeps_ret | apply keeps_throw].
Qed.

Lemma keeps_buffer_call (m : Buffer.reader) (arg : Z) :
  keeps R (buffer_call m arg).
Proof.
  intros s. unfold buffer_call. destruct m; simpl; apply R_refl.
Qed.

Lemma keeps_getPixelColor_via (m : Buffer.reader) (index : Z) :
  keeps R (getPixelColor_via m index).
Proof.
  unfold getPixelColor_via.
  repeat (apply keeps_bind; [apply keeps_buffer_call | intros ?]).
  apply keeps_ret.
Qed.

End Keeps.

Lemma same_shape_refl (s : strip) : same_shape s s.
Proof. split; reflexivity. Qed.

Lemma same_shape_trans (s1 s2 s3 : strip) :
  same_shape s1 s2 -> same_shape s2 s3 -> same_shape s1 s3.
Proof. unfold same_shape. intros [? ?] [? ?]. split; congruence. Qed.

Lemma same_outside_refl (P : Z -> Prop) (s : strip) : same_outside P s s.
Proof. split; [reflexivity | intros; reflexivity]. Qed.

Lemma same_outside_trans (P : Z -> Prop) (s1 s2 s3 : strip) :
  same_outside P s1 s2 -> same_outside P s2 s3 -> same_outside P s1 s3.
Proof.
  intros [Hp1 H1] [Hp2 H2]. split; [congruence|].
  intros j Hj. rewrite (H2 j Hj). apply (H1 j Hj).
Qed.

Lemma same_outside_weaken (P Q : Z -> Prop) (s s' : strip) :
  (forall j, P j -> Q j) -> same_outside P s s' -> same_outside Q s s'.
Proof.
  intros HPQ [Hp H]. split; [exact Hp|]. intros j Hj. apply H. auto.
Qed.

Lemma buffer_writeUInt8_shape (value offset : Z) :
  keeps same_shape (buffer_writeUInt8 value offset).
Proof.
  intros s. unfold buffer_writeUInt8.
  pose proof (writeUInt8_length value offset (buffer s)) as Hlen.
  destruct (Buffer.writeUInt8 value offset (buffer s)) as [r b].
  split; [reflexivity | exact Hlen].
Qed.

Lemma buffer_writeUInt8_outside (value offset : Z) :
  keeps (same_outside (eq offset)) (buffer_writeUInt8 value offset).
Proof.
  intros s. unfold buffer_writeUInt8.
  pose proof (fun j => writeUInt8_frame value offset j (buffer s)) as Hfr.
  destruct (Buffer.writeUInt8 value offset (buffer s)) as [r b].
  split; [reflexivity|]. intros j Hj. apply Hfr. congruence.
Qed.

Lemma buffer_set_index_shape (i v : Z) : keeps same_shape (buffer_set_index i v).
Proof.
  intros s. split; [reflexivity | apply set_index_length].
Qed.

(** ** [setPixelColor] *)

Section SetPixelColor.

Variable get_rgb : string -> option rgb.

Lemma setPixelColor_shape (index : Z) (color : ColorInput) :
  keeps same_shape (setPixelColor get_rgb index color).
Proof.
  unfold setPixelColor.
  repeat (apply (keeps_bind _ same_shape_trans);
          [ first [ apply (keeps_channel _ same_shape_refl)
                  | apply buffer_writeUInt8_shape ]
          | intros ? ]).
  apply (keeps_ret _ same_shape_refl).
Qed.

Lemma setPixelColor_outside (index : Z) (color : ColorInput) :
  keeps (same_outside (offsets_of index)) (setPixelColor get_rgb index color).
Proof.
  pose proof (same_outside_refl (offsets_of index)) as Hrefl.
  pose proof (same_outside_trans (offsets_of index)) as Htrans.
  assert (Hw : forall value offset, offsets_of index offset ->
            keeps (same_outside (offsets_of index))
                  (buffer_writeUInt8 value offset)).
  { intros value offset Hin s.
    apply (same_outside_weaken (eq offset)); [intros j <-; exact Hin|].
    apply buffer_writeUInt8_outside. }
  unfold setPixelColor.
  repeat (apply (keeps_bind _ Htrans);
          [ first [ apply (keeps_channel _ Hrefl)
                  | apply Hw; unfold offsets_of; lia ]
          | intros ? ]).
  apply (keeps_ret _ Hrefl).
Qed.

(** An unresolvable string: the first [colorArray[0]] throws, before any
    write. *)
Lemma setPixelColor_null (index : Z) (color : ColorInput) (s : strip) :
  colorArray_of get_rgb color = None ->
  setPixelColor get_rgb index color s = (Throw TypeError_null, s).
Proof. intros H. unfold setPixelColor. rewrite H. reflexivity. Qed.

(** A first channel that is not a byte reaches [writeUInt8] and is
    refused there, before any write. *)
Lemma setPixelColor_first_channel (index : Z) (color : ColorInput)
      (r g b : Z) (s : strip) :
  colorArray_of get_rgb color = Some (r, g, b) -> ~ byte_range r ->
  setPixelColor get_rgb index color s = (Throw RangeError_value, s).
Proof.
  intros H Hr. unfold setPixelColor. rewrite H. unfold_M. simpl.
  unfold buffer_writeUInt8. rewrite (writeUInt8_bad_value _ _ _ Hr).
  destruct s; reflexivity.
Qed.

(** An index outside the strip, with a first channel that is a byte: the
    first write is refused for its offset. *)
Lemma setPixelColor_bad_index (index : Z) (color : ColorInput)
      (r g b : Z) (s : strip) :
  strip_inv s -> index < 0 \/ pixelCount s <= index ->
  colorArray_of get_rgb color = Some (r, g, b) -> byte_range r ->
  setPixelColor get_rgb index color s = (Throw RangeError_offset, s).
Proof.
  intros Hinv Hidx H Hr. unfold setPixelColor. rewrite H. unfold_M. simpl.
  unfold buffer_writeUInt8. rewrite (writeUInt8_bad_offset _ _ _ Hr).
  - destruct s; reflexivity.
  - unfold strip_inv in Hinv. lia.
Qed.

(** A byte triple at an index inside the buffer: three stores. *)
Lemma setPixelColor_stores (index : Z) (color : ColorInput)
      (r g b : Z) (s : strip) :
  colorArray_of get_rgb color = Some (r, g, b) -> byte_triple (r, g, b) ->
  0 <= index -> index * 3 + 3 <= Z.of_nat (length (buffer s)) ->
  setPixelColor get_rgb index color s
  = (Normal tt,
     mkStrip (<[Z.to_nat (index * 3 + 2) := b]>
                (<[Z.to_nat (index * 3 + 1) := g]>
                   (<[Z.to_nat (index * 3) := r]> (buffer s))))
             (pixelCount s)).
Proof.
  intros H (Hr & Hg & Hb) H0 Hlen. unfold setPixelColor. rewrite H.
  unfold_M. simpl. unfold buffer_writeUInt8. simpl.
  rewrite (writeUInt8_stores r)
    by first [assumption | lia]. simpl.
  rewrite (writeUInt8_stores g)
    by first [assumption | rewrite ?length_insert; lia]. simpl.
  rewrite (writeUInt8_stores b)
    by first [assumption | rewrite ?length_insert; lia].
  reflexivity.
Qed.

(** The same, with the buffer split at the pixel. *)
Lemma setPixelColor_middle (index : Z) (color : ColorInput) (r g b : Z)
      (pre : list Z) (x y z : Z) (rest : list Z) (n : Z) :
  colorArray_of get_rgb color = Some (r, g, b) -> byte_triple (r, g, b) ->
  Z.of_nat (length pre) = index * 3 ->
  setPixelColor get_rgb index color (mkStrip (pre ++ x :: y :: z :: rest) n)
  = (Normal tt, mkStrip (pre ++ r :: g :: b :: rest) n).
Proof.
  intros H Hc Hpre.
  rewrite (setPixelColor_stores index color r g b); auto; simpl.
  - f_equal. f_equal.
    replace (Z.to_nat (index * 3)) with (length pre + 0)%nat by lia.
    replace (Z.to_nat (index * 3 + 1)) with (length pre + 1)%nat by lia.
    replace (Z.to_nat (index * 3 + 2)) with (length pre + 2)%nat by lia.
    rewrite !insert_app_r. reflexivity.
  - lia.
  - rewrite length_app. simpl. lia.
Qed.

(** The loop of [on] and [off] over a stretch of the buffer. *)
Lemma fill_loop (color : ColorInput) (r g b : Z) :
  colorArray_of get_rgb color = Some (r, g, b) -> byte_triple (r, g, b) ->
  forall (k : nat) (index : Z) (pre mid rest : list Z) (n : Z),
    Z.of_nat (length pre) = index * 3 ->
    length mid = (3 * k)%nat ->
    for_loop k index (fun i => setPixelColor get_rgb i color)
             (mkStrip (pre ++ mid ++ rest) n)
    = (Normal tt, mkStrip (pre ++ filled k (r, g, b) ++ rest) n).
Proof.
  intros H Hc. induction k as [|k IH]; intros index pre mid rest n Hpre Hmid.
  - destruct mid; [reflexivity | discriminate].
  - destruct mid as [|x [|y [|z mid]]]; simpl in Hmid; try lia.
    simpl for_loop. unfold_M. simpl app.
    rewrite (setPixelColor_middle index color r g b); auto.
    change (pre ++ r :: g :: b :: mid ++ rest)
      with (pre ++ [r; g; b] ++ mid ++ rest).
    rewrite (app_assoc pre). rewrite IH.
    + simpl. rewrite <- app_assoc. reflexivity.
    + rewrite length_app. simpl. lia.
    + lia.
Qed.

End SetPixelColor.

(** ** The whole-strip loops *)

Lemma filled_length (k : nat) (c : rgb) : length (filled k c) = (3 * k)%nat.
Proof.
  destruct c as [[r g] b]. unfold filled.
  induction k as [|k IH]; simpl; [reflexivity | rewrite IH; lia].
Qed.

Lemma filled_zero (k : nat) : filled k (0, 0, 0) = replicate (3 * k) 0.
Proof.
  unfold filled. induction k as [|k IH]; simpl; [reflexivity|].
  rewrite IH. replace (k + (k + (k + 0)))%nat with (3 * k)%nat by lia.
  replace (k + S (k + S (k + 0)))%nat with (S (S (3 * k))) by lia.
  reflexivity.
Qed.

(** Every pixel of a filled buffer holds the color. *)
Lemma filled_pixel (k : nat) (c : rgb) (index : Z) :
  0 <= index < Z.of_nat k -> pixel (filled k c) index = Some c.
Proof.
  destruct c as [[r g] b]. revert index.
  induction k as [|k IH]; intros index Hi; [lia|].
  destruct (Z.eq_dec index 0) as [->|Hne]; [reflexivity|].
  specialize (IH (index - 1) ltac:(lia)).
  unfold pixel, Buffer.get_index in *.
  destruct (Z.leb_spec 0 (index * 3)); [|lia].
  destruct (Z.leb_spec 0 (index * 3 + 1)); [|lia].
  destruct (Z.leb_spec 0 (index * 3 + 2)); [|lia].
  destruct (Z.leb_spec 0 ((index - 1) * 3)); [|lia].
  destruct (Z.leb_spec 0 ((index - 1) * 3 + 1)); [|lia].
  destruct (Z.leb_spec 0 ((index - 1) * 3 + 2)); [|lia].
  replace (Z.to_nat (index * 3)) with (3 + Z.to_nat ((index - 1) * 3))%nat by lia.
  replace (Z.to_nat (index * 3 + 1))
    with (3 + Z.to_nat ((index - 1) * 3 + 1))%nat by lia.
  replace (Z.to_nat (index * 3 + 2))
    with (3 + Z.to_nat ((index - 1) * 3 + 2))%nat by lia.
  exact IH.
Qed.

(** The zeroing loop of the constructor over a stretch of the buffer. *)
Lemma zero_loop (k : nat) :
  forall (i : Z) (pre mid rest : list Z) (n : Z),
    Z.of_nat (length pre) = i -> length mid = k ->
    for_loop k i (fun i => buffer_set_index i 0) (mkStrip (pre ++ mid ++ rest) n)
    = (Normal tt, mkStrip (pre ++ replicate k 0 ++ rest) n).
Proof.
  induction k as [|k IH]; intros i pre mid rest n Hpre Hmid.
  - destruct mid; [reflexivity | discriminate].
  - destruct mid as [|x mid]; [discriminate|].
    simpl for_loop. unfold_M. unfold buffer_set_index at 1. simpl.
    unfold Buffer.set_index. destruct (Z.leb_spec 0 i); [|lia].
    replace (Z.to_nat i) with (length pre + 0)%nat by lia.
    rewrite insert_app_r. simpl.
    change (pre ++ 0 `mod` 256 :: mid ++ rest) with (pre ++ [0] ++ mid ++ rest).
    rewrite (app_assoc pre). rewrite IH.
    + rewrite <- app_assoc. reflexivity.
    + rewrite length_app. simpl. lia.
    + simpl in Hmid. lia.
Qed.

Section Loops.

Variable get_rgb : string -> option rgb.
Variable available : Z -> bool.
Variable uninit : nat -> Z.

Lemma Strip_zeroed (n : Z) :
  0 <= n -> available (n * 3) = true ->
  Strip available uninit n
  = Normal (mkStrip (replicate (Z.to_nat (n * 3)) 0) n).
Proof.
  intros Hn Hav. unfold Strip, Buffer.create.
  destruct (Z.ltb_spec (n * 3) 0); [lia|]. rewrite Hav.
  set (junk := map _ _).
  pose proof (zero_loop (Z.to_nat (n * 3)) 0 [] junk [] n) as Hloop.
  simpl in Hloop. rewrite !app_nil_r in Hloop. rewrite Hloop.
  - reflexivity.
  - reflexivity.
  - unfold junk. rewrite length_map, length_seq. reflexivity.
Qed.

(** The constructor returns only for a size that is not negative and that
    the runtime serves, and then it returns the zeroed strip. *)
Lemma Strip_returned (n : Z) (s : strip) :
  Strip available uninit n = Normal s ->
  0 <= n /\ available (n * 3) = true /\
  s = mkStrip (replicate (Z.to_nat (n * 3)) 0) n.
Proof.
  intros H.
  assert (Hn : 0 <= n).
  { unfold Strip, Buffer.create in H.
    destruct (Z.ltb_spec (n * 3) 0); [discriminate | lia]. }
  assert (Hav : available (n * 3) = true).
  { unfold Strip, Buffer.create in H.
    destruct (n * 3 <? 0); [discriminate|].
    destruct (available (n * 3)); [reflexivity | discriminate]. }
  rewrite (Strip_zeroed n Hn Hav) in H. injection H as <-. auto.
Qed.

Lemma on_fills (color : ColorInput) (r g b : Z) (s : strip) :
  strip_inv s ->
  colorArray_of get_rgb color = Some (r, g, b) -> byte_triple (r, g, b) ->
  on get_rgb color s
  = (Normal tt,
     mkStrip (filled (Z.to_nat (pixelCount s)) (r, g, b)) (pixelCount s)).
Proof.
  intros Hinv H Hc. unfold on. destruct s as [buf n]. simpl in *.
  unfold strip_inv in Hinv. simpl in Hinv.
  pose proof (fill_loop get_rgb color r g b H Hc (Z.to_nat n) 0 [] buf [] n)
    as Hloop.
  simpl app in Hloop. rewrite !app_nil_r in Hloop. apply Hloop.
  - reflexivity.
  - lia.
Qed.

Lemma filled_inv (n : Z) (c : rgb) :
  0 <= n -> strip_inv (mkStrip (filled (Z.to_nat n) c) n).
Proof. intros Hn. unfold strip_inv. simpl. rewrite filled_length. lia. Qed.

(** The loop of the source and the calls in order are one program. *)
Lemma for_loop_call_each (body : Z -> M unit) (k : nat) (i : Z) (s : strip) :
  for_loop k i body s = call_each body (seqZ i (Z.of_nat k)) s.
Proof.
  revert i s. induction k as [|k IH]; intros i s; [reflexivity|].
  rewrite Nat2Z.inj_succ, seqZ_cons by lia. simpl. unfold_M.
  destruct (body i s) as [[[]|e] s1]; [|reflexivity].
  rewrite IH. replace (Z.pred (Z.succ (Z.of_nat k))) with (Z.of_nat k) by lia.
  replace (Z.succ i) with (i + 1) by lia. reflexivity.
Qed.

End Loops.

(** ** [getPixelColor] *)

Lemma getPixelColor_throws (index : Z) (s : strip) :
  getPixelColor index s = (Throw TypeError_not_a_function, s).
Proof. reflexivity. Qed.

Section Claims.

Variable get_rgb : string -> option rgb.
Variable available : Z -> bool.
Variable uninit : nat -> Z.

(** What the read would give if it went through [readUInt8], the byte
    reader that Buffer does have: the triple just written. *)
Lemma setPixelColor_then_readUInt8 (index r g b : Z) (s : strip) :
  strip_inv s -> 0 <= index < pixelCount s -> byte_triple (r, g, b) ->
  fst ((setPixelColor get_rgb index (ColorArray r g b) ;;
        getPixelColor_via (Some Buffer.readUInt8) index) s)
  = Normal (r, g, b).
Proof.
  intros Hinv Hidx Hc. unfold strip_inv in Hinv.
  unfold mbind at 1. unfold M_bind.
  rewrite (setPixelColor_stores get_rgb index _ r g b); auto; try lia.
  unfold getPixelColor_via, buffer_call. unfold_M. simpl.
  unfold Buffer.readUInt8, Buffer.get_index.
  destruct (Z.leb_spec 0 (index * 3)); [|lia].
  destruct (Z.leb_spec 0 (index * 3 + 1)); [|lia].
  destruct (Z.leb_spec 0 (index * 3 + 2)); [|lia].
  rewrite (list_lookup_insert_ne _ _ (Z.to_nat (index * 3))) by lia.
  rewrite (list_lookup_insert_ne _ _ (Z.to_nat (index * 3))) by lia.
  rewrite (list_lookup_insert_eq _ (Z.to_nat (index * 3))) by lia.
  rewrite (list_lookup_insert_ne _ _ (Z.to_nat (index * 3 + 1))) by lia.
  rewrite (list_lookup_insert_eq _ (Z.to_nat (index * 3 + 1)))
    by (rewrite length_insert; lia).
  rewrite (list_lookup_insert_eq _ (Z.to_nat (index * 3 + 2)))
    by (rewrite !length_insert; lia).
  reflexivity.
Qed.

(** C1, at the strip of one pixel (its three bytes granted by the
    runtime): after [setPixelColor(0, [1,2,3])] the buffer holds 1, 2, 3,
    but [getPixelColor(0)] does not return the triple: it calls
    [this.buffer.read], which is undefined, and throws a TypeError. *)
Theorem set_then_get_throws :
  available 3 = true ->
  exists s0, Strip available uninit 1 = Normal s0 /\
    (setPixelColor get_rgb 0 (ColorArray 1 2 3) ;; getPixelColor 0) s0
    = (Throw TypeError_not_a_function, mkStrip [1; 2; 3] 1).
Proof.
  intros Hav. eexists. split; [apply Strip_zeroed; [lia | exact Hav]|].
  reflexivity.
Qed.

(** C2, as the code has it: with an index below 0 or not below
    [pixelCount], [setPixelColor] throws and leaves the strip as it was;
    the error is the range error on the offset when the color resolves
    to a triple whose first channel is a byte (a string that does not
    resolve, or a first channel that is not a byte, is reported first).
    [getPixelColor] leaves the strip as it was. *)
Theorem out_of_range_index_leaves_strip
        (index : Z) (color : ColorInput) (s : strip) :
  strip_inv s -> index < 0 \/ pixelCount s <= index ->
  (exists e, setPixelColor get_rgb index color s = (Throw e, s)) /\
  (forall r g b,
      colorArray_of get_rgb color = Some (r, g, b) -> byte_range r ->
      setPixelColor get_rgb index color s = (Throw RangeError_offset, s)) /\
  (colorArray_of get_rgb color = None ->
      setPixelColor get_rgb index color s = (Throw TypeError_null, s)) /\
  (forall r g b,
      colorArray_of get_rgb color = Some (r, g, b) -> ~ byte_range r ->
      setPixelColor get_rgb index color s = (Throw RangeError_value, s)) /\
  snd (getPixelColor index s) = s.
Proof.
  intros Hinv Hidx.
  assert (Hoff : forall r g b,
             colorArray_of get_rgb color = Some (r, g, b) -> byte_range r ->
             setPixelColor get_rgb index color s = (Throw RangeError_offset, s))
    by (intros; eapply setPixelColor_bad_index; eauto).
  assert (Hval : forall r g b,
             colorArray_of get_rgb color = Some (r, g, b) -> ~ byte_range r ->
             setPixelColor get_rgb index color s = (Throw RangeError_value, s))
    by (intros; eapply setPixelColor_first_channel; eauto).
  split; [|repeat split; auto using setPixelColor_null].
  destruct (colorArray_of get_rgb color) as [[[r g] b]|] eqn:Hc.
  - destruct (decide (0 <= r <= 255)) as [Hr|Hr].
    + exists RangeError_offset. eapply Hoff; eauto.
    + exists RangeError_value. eapply Hval; eauto.
  - exists TypeError_null. apply setPixelColor_null. exact Hc.
Qed.

(** C3: for [pixelCount >= 0], the strip the constructor returns has that
    [pixelCount] and a buffer of [pixelCount * 3] bytes, all 0, empty for
    [pixelCount = 0]; and the constructor does return one whenever the
    runtime serves a buffer of that size. *)
Theorem Strip_fresh (n : Z) :
  0 <= n ->
  (forall s, Strip available uninit n = Normal s ->
     pixelCount s = n /\
     Z.of_nat (length (buffer s)) = n * 3 /\
     Forall (fun byte => byte = 0) (buffer s) /\
     (n = 0 -> buffer s = [])) /\
  (available (n * 3) = true ->
   exists s, Strip available uninit n = Normal s).
Proof.
  intros Hn. split.
  - intros s Hs. destruct (Strip_returned available uninit n s Hs) as (_ & _ & ->).
    simpl. split; [reflexivity|]. split; [rewrite length_replicate; lia|].
    split; [apply Forall_replicate; reflexivity|].
    intros ->. reflexivity.
  - intros Hav. eexists. apply Strip_zeroed; assumption.
Qed.

(** Every method keeps [pixelCount] and the length of the buffer,
    whether it returns or throws. *)
Lemma perform_shape (s : strip) (c : call) :
  same_shape s (perform get_rgb s c).
Proof.
  destruct c as [index color|index| |color]; unfold perform.
  - apply setPixelColor_shape.
  - apply (keeps_getPixelColor_via
             same_shape same_shape_refl same_shape_trans Buffer.read).
  - unfold off. apply (keeps_for_loop _ same_shape_refl same_shape_trans).
    intros k. apply setPixelColor_shape.
  - unfold on. apply (keeps_for_loop _ same_shape_refl same_shape_trans).
    intros k. apply setPixelColor_shape.
Qed.

Lemma perform_inv (s : strip) (c : call) :
  strip_inv s ->
  strip_inv (perform get_rgb s c) /\
  pixelCount (perform get_rgb s c) = pixelCount s.
Proof.
  intros Hinv. destruct (perform_shape s c) as [Hn Hlen].
  unfold strip_inv in *. rewrite Hn, Hlen. auto.
Qed.

Lemma lifetime_inv (calls : list call) (s : strip) :
  strip_inv s ->
  strip_inv (fold_left (perform get_rgb) calls s) /\
  pixelCount (fold_left (perform get_rgb) calls s) = pixelCount s.
Proof.
  revert s. induction calls as [|c calls IH]; intros s Hinv; simpl.
  - auto.
  - destruct (perform_inv s c Hinv) as [Hinv' Hn].
    destruct (IH _ Hinv') as [H1 H2]. split; [exact H1 | congruence].
Qed.

(** C4: a strip that [Strip(n)] returns has [buffer.length =
    pixelCount * 3] and [pixelCount = n], and both still hold after any
    sequence of calls; every call of [setPixelColor], [getPixelColor],
    [off] or [on] keeps both, whether it returns or throws; and [Strip(n)]
    does return a strip when [n >= 0] and the runtime serves the
    buffer. *)
Theorem buffer_length_invariant (n : Z) :
  (forall s0, Strip available uninit n = Normal s0 ->
     strip_inv s0 /\ pixelCount s0 = n /\
     (forall calls,
        strip_inv (fold_left (perform get_rgb) calls s0) /\
        pixelCount (fold_left (perform get_rgb) calls s0) = n)) /\
  (forall s c, strip_inv s ->
     strip_inv (perform get_rgb s c) /\
     pixelCount (perform get_rgb s c) = pixelCount s) /\
  (0 <= n -> available (n * 3) = true ->
   exists s0, Strip available uninit n = Normal s0).
Proof.
  split; [|split].
  - intros s0 Hs0.
    destruct (Strip_returned available uninit n s0 Hs0) as (Hn & _ & ->).
    assert (Hinv : strip_inv (mkStrip (replicate (Z.to_nat (n * 3)) 0) n)).
    { unfold strip_inv. simpl. rewrite length_replicate. lia. }
    split; [exact Hinv|]. split; [reflexivity|].
    intros calls. apply (lifetime_inv calls _ Hinv).
  - intros s c. apply perform_inv.
  - intros Hn Hav. eexists. apply Strip_zeroed; assumption.
Qed.

(** C5, as the code has it: when the color resolves to a triple of bytes
    (each channel in 0..255), [on(color)] returns
    and leaves the buffer made of [pixelCount] copies of the triple, so
    that every pixel holds it; on a strip of 3 pixels [on([10,20,30])]
    leaves the buffer [10,20,30,10,20,30,10,20,30]. *)
Theorem on_sets_every_pixel :
  (forall (color : ColorInput) (r g b : Z) (s : strip),
      strip_inv s ->
      colorArray_of get_rgb color = Some (r, g, b) ->
      byte_triple (r, g, b) ->
      fst (on get_rgb color s) = Normal tt /\
      pixelCount (snd (on get_rgb color s)) = pixelCount s /\
      buffer (snd (on get_rgb color s))
      = filled (Z.to_nat (pixelCount s)) (r, g, b) /\
      (forall index, 0 <= index < pixelCount s ->
         pixel (buffer (snd (on get_rgb color s))) index = Some (r, g, b)))
  /\
  (forall s : strip,
      strip_inv s -> pixelCount s = 3 ->
      buffer (snd (on get_rgb (ColorArray 10 20 30) s))
      = [10; 20; 30; 10; 20; 30; 10; 20; 30]).
Proof.
  split.
  - intros color r g b s Hinv H Hc.
    rewrite (on_fills get_rgb color r g b s Hinv H Hc). simpl.
    repeat split; auto.
    intros index Hidx.
    apply (filled_pixel (Z.to_nat (pixelCount s)) (r, g, b)). lia.
  - intros s Hinv Hn.
    rewrite (on_fills get_rgb (ColorArray 10 20 30) 10 20 30 s Hinv).
    + simpl. rewrite Hn. reflexivity.
    + reflexivity.
    + unfold byte_triple, byte_range. lia.
Qed.

(** C6: with a string that does not resolve, [on] leaves the strip as it
    was (and throws at the first pixel, if there is one). *)
Theorem on_unresolvable_changes_nothing (text : string) (s : strip) :
  get_rgb text = None ->
  snd (on get_rgb (ColorString text) s) = s /\
  buffer (snd (on get_rgb (ColorString text) s)) = buffer s /\
  (0 < pixelCount s ->
   fst (on get_rgb (ColorString text) s) = Throw TypeError_null).
Proof.
  intros H. unfold on.
  destruct (Z.to_nat (pixelCount s)) as [|k] eqn:Hk.
  - simpl. repeat split; auto. lia.
  - simpl. unfold mbind, M_bind.
    rewrite (setPixelColor_null get_rgb 0 (ColorString text) s H).
    repeat split; auto.
Qed.

Lemma off_fills (s : strip) :
  strip_inv s ->
  off get_rgb s
  = (Normal tt,
     mkStrip (filled (Z.to_nat (pixelCount s)) (0, 0, 0)) (pixelCount s)).
Proof.
  intros Hinv. change (off get_rgb s) with (on get_rgb (ColorArray 0 0 0) s).
  apply on_fills; [exact Hinv | reflexivity |].
  unfold byte_triple, byte_range. lia.
Qed.

(** C7: [off()] returns and leaves every byte 0, so that every pixel is
    (0,0,0); it is the same state transformation as the calls
    [setPixelColor(i, [0,0,0])] for i = 0, ..., pixelCount-1 in that
    order; and [off()] twice is [off()] once. *)
Theorem off_all_black (s : strip) :
  strip_inv s ->
  off get_rgb s
  = (Normal tt,
     mkStrip (replicate (3 * Z.to_nat (pixelCount s)) 0) (pixelCount s)) /\
  (forall index, 0 <= index < pixelCount s ->
     pixel (buffer (snd (off get_rgb s))) index = Some (0, 0, 0)) /\
  off get_rgb s = off_as_calls get_rgb s /\
  (off get_rgb ;; off get_rgb) s = off get_rgb s.
Proof.
  intros Hinv. pose proof (off_fills s Hinv) as Hoff.
  assert (Hn : 0 <= pixelCount s) by (unfold strip_inv in Hinv; lia).
  split; [rewrite Hoff, filled_zero; reflexivity|].
  split.
  { intros index Hidx. rewrite Hoff.
    apply (filled_pixel (Z.to_nat (pixelCount s)) (0, 0, 0)). lia. }
  split.
  { unfold off, off_as_calls. rewrite for_loop_call_each.
    rewrite Z2Nat.id by exact Hn. reflexivity. }
  unfold mbind, M_bind. rewrite Hoff.
  apply (off_fills (mkStrip _ _)). apply filled_inv. exact Hn.
Qed.

(** C8: the code follows the second policy.  At an index of the strip, a
    color array with a channel that is not in 0..255 makes
    [setPixelColor] throw the range error on the value; no such value is
    ever reduced modulo 256. *)
Theorem setPixelColor_rejects_channel (index r g b : Z) (s : strip) :
  strip_inv s -> 0 <= index < pixelCount s ->
  ~ byte_triple (r, g, b) ->
  fst (setPixelColor get_rgb index (ColorArray r g b) s)
  = Throw RangeError_value.
Proof.
  intros Hinv Hidx Hc. unfold strip_inv in Hinv.
  unfold setPixelColor. simpl. unfold_M. simpl. unfold buffer_writeUInt8.
  destruct (decide (byte_range r)) as [Hr|Hr];
    [|rewrite (writeUInt8_bad_value _ _ _ Hr); reflexivity].
  rewrite (writeUInt8_stores r) by first [assumption | lia]. simpl.
  destruct (decide (byte_range g)) as [Hg|Hg];
    [|rewrite (writeUInt8_bad_value _ _ _ Hg); reflexivity].
  rewrite (writeUInt8_stores g)
    by first [assumption | rewrite ?length_insert; lia]. simpl.
  destruct (decide (byte_range b)) as [Hb|Hb];
    [|rewrite (writeUInt8_bad_value _ _ _ Hb); reflexivity].
  exfalso. apply Hc. unfold byte_triple. auto.
Qed.

(** Whatever its outcome, [setPixelColor] touches nothing but the three
    bytes of its pixel. *)
Lemma setPixelColor_touches_its_pixel
      (index : Z) (color : ColorInput) (s : strip) :
  pixelCount (snd (setPixelColor get_rgb index color s)) = pixelCount s /\
  length (buffer (snd (setPixelColor get_rgb index color s)))
  = length (buffer s) /\
  (forall j : Z,
      j <> index * 3 -> j <> index * 3 + 1 -> j <> index * 3 + 2 ->
      Buffer.get_index j (buffer (snd (setPixelColor get_rgb index color s)))
      = Buffer.get_index j (buffer s)).
Proof.
  destruct (setPixelColor_shape get_rgb index color s) as [Hn Hlen].
  destruct (setPixelColor_outside get_rgb index color s) as [_ Hout].
  split; [exact Hn|]. split; [exact Hlen|].
  intros j H0 H1 H2. apply Hout. unfold offsets_of. lia.
Qed.

(** C9: a call [setPixelColor(index, color)] that returns, at an index of
    the strip, keeps [pixelCount], the length of the buffer, and the byte
    at every offset other than index*3, index*3+1, index*3+2. *)
Theorem setPixelColor_frame (index : Z) (color : ColorInput) (s : strip) :
  strip_inv s -> 0 <= index < pixelCount s ->
  fst (setPixelColor get_rgb index color s) = Normal tt ->
  pixelCount (snd (setPixelColor get_rgb index color s)) = pixelCount s /\
  length (buffer (snd (setPixelColor get_rgb index color s)))
  = length (buffer s) /\
  (forall j : Z,
      j <> index * 3 -> j <> index * 3 + 1 -> j <> index * 3 + 2 ->
      Buffer.get_index j (buffer (snd (setPixelColor get_rgb index color s)))
      = Buffer.get_index j (buffer s)).
Proof. intros _ _ _. apply setPixelColor_touches_its_pixel. Qed.

(** C10: [getPixelColor(index)] leaves the strip, buffer and
    [pixelCount], exactly as it was, whatever its outcome. *)
Theorem getPixelColor_pure (index : Z) (s : strip) :
  snd (getPixelColor index s) = s /\
  buffer (snd (getPixelColor index s)) = buffer s /\
  pixelCount (snd (getPixelColor index s)) = pixelCount s.
Proof.
  assert (H : snd (getPixelColor index s) = s).
  { symmetry.
    apply (keeps_getPixelColor_via eq (@eq_refl strip) (@eq_trans strip)
             Buffer.read index s). }
  rewrite H. auto.
Qed.

End Claims.

(** ** The module at work *)

(** The scenario of the documentation: two pixels, the first set by name,
    the second by an array. *)
Example two_pixels :
  exists s0, Strip Demo.available Demo.uninit 2 = Normal s0 /\
    (setPixelColor Demo.get_rgb 0 (ColorString "blue") ;;
     setPixelColor Demo.get_rgb 1 (ColorArray 1 2 3)) s0
    = (Normal tt, mkStrip [0; 0; 255; 1; 2; 3] 2).
Proof. eexists. split; reflexivity. Qed.

(** Past the end of the strip, the color is looked at before the offset. *)
Example past_the_end_unresolvable :
  setPixelColor Demo.get_rgb 1 (ColorString "not-a-color") (mkStrip [0; 0; 0] 1)
  = (Throw TypeError_null, mkStrip [0; 0; 0] 1).
Proof. reflexivity. Qed.

Example past_the_end_bad_channel :
  setPixelColor Demo.get_rgb 1 (ColorArray 256 0 0) (mkStrip [0; 0; 0] 1)
  = (Throw RangeError_value, mkStrip [0; 0; 0] 1).
Proof. reflexivity. Qed.

Example past_the_end_bytes :
  setPixelColor Demo.get_rgb 1 (ColorArray 1 2 3) (mkStrip [0; 0; 0] 1)
  = (Throw RangeError_offset, mkStrip [0; 0; 0] 1).
Proof. reflexivity. Qed.

(** A channel that is not a byte is refused where it is written: the
    channels before it are already stored. *)
Example second_channel_refused :
  setPixelColor Demo.get_rgb 1 (ColorArray 10 300 30) Demo.strip3
  = (Throw RangeError_value, mkStrip [1; 2; 3; 10; 5; 6; 7; 8; 9] 3).
Proof. reflexivity. Qed.

(** [on] with a channel that is not a byte: the first pixel is half
    written, the call throws, the other pixels are as they were. *)
Example on_channel_refused :
  on Demo.get_rgb (ColorArray 10 300 30) Demo.strip3
  = (Throw RangeError_value, mkStrip [10; 2; 3; 4; 5; 6; 7; 8; 9] 3).
Proof. reflexivity. Qed.

(** The constructor on a size the runtime does not serve. *)
Example Strip_too_large :
  Strip Demo.available Demo.uninit (2 ^ 51) = Throw RangeError_size.
Proof. reflexivity. Qed.

(** ** The theorems at work on a strip of three pixels *)

Lemma out_of_range_index_witness :
  strip_inv Demo.strip3 /\ (3 < 0 \/ pixelCount Demo.strip3 <= 3) /\
  setPixelColor Demo.get_rgb 3 (ColorArray 1 2 3) Demo.strip3
  = (Throw RangeError_offset, Demo.strip3).
Proof.
  assert (Hinv : strip_inv Demo.strip3) by reflexivity.
  assert (Hidx : 3 < 0 \/ pixelCount Demo.strip3 <= 3) by (right; simpl; lia).
  split; [exact Hinv|]. split; [exact Hidx|].
  destruct (out_of_range_index_leaves_strip
              Demo.get_rgb 3 (ColorArray 1 2 3) Demo.strip3 Hinv Hidx)
    as (_ & Hoff & _).
  apply (Hoff 1 2 3); [reflexivity | unfold byte_range; lia].
Defined.

(** C2 as the specification words it fails: on the strip of one pixel,
    [setPixelColor(1, "not-a-color")] does not throw the range error on
    the offset; the string does not resolve and [colorArray[0]] throws a
    TypeError first. *)
Lemma out_of_range_error_counterexample :
  ~ (forall (s : strip) (index : Z) (color : ColorInput),
        strip_inv s -> index < 0 \/ pixelCount s <= index ->
        (fst (setPixelColor Demo.get_rgb index color s) = Throw RangeError_offset /\
         buffer (snd (setPixelColor Demo.get_rgb index color s)) = buffer s) /\
        (fst (getPixelColor index s) = Throw RangeError_offset /\
         buffer (snd (getPixelColor index s)) = buffer s)).
Proof.
  intros Hclaim.
  destruct (Hclaim (mkStrip [0; 0; 0] 1) 1 (ColorString "not-a-color"))
    as [[Hset _] _]; [reflexivity | right; simpl; lia |].
  discriminate Hset.
Qed.

Lemma Strip_fresh_witness :
  0 <= 2 /\ Demo.available (2 * 3) = true /\
  exists s, Strip Demo.available Demo.uninit 2 = Normal s /\
    pixelCount s = 2 /\
    Z.of_nat (length (buffer s)) = 2 * 3 /\
    Forall (fun byte => byte = 0) (buffer s) /\
    (2 = 0 -> buffer s = []).
Proof.
  assert (Hn : 0 <= 2) by lia.
  assert (Hav : Demo.available (2 * 3) = true) by reflexivity.
  split; [exact Hn|]. split; [exact Hav|].
  destruct (Strip_fresh Demo.available Demo.uninit 2 Hn) as [Hfresh Hreturns].
  destruct (Hreturns Hav) as [s Hs].
  exists s. split; [exact Hs|]. apply (Hfresh s Hs).
Defined.

Lemma buffer_length_invariant_witness :
  0 <= 3 /\ Demo.available (3 * 3) = true /\
  exists s0, Strip Demo.available Demo.uninit 3 = Normal s0 /\
    strip_inv s0 /\ pixelCount s0 = 3 /\
    (forall calls,
       strip_inv (fold_left (perform Demo.get_rgb) calls s0) /\
       pixelCount (fold_left (perform Demo.get_rgb) calls s0) = 3).
Proof.
  assert (Hn : 0 <= 3) by lia.
  assert (Hav : Demo.available (3 * 3) = true) by reflexivity.
  split; [exact Hn|]. split; [exact Hav|].
  destruct (buffer_length_invariant Demo.get_rgb Demo.available Demo.uninit 3)
    as (Hlife & _ & Hreturns).
  destruct (Hreturns Hn Hav) as [s0 Hs0].
  exists s0. split; [exact Hs0|]. apply (Hlife s0 Hs0).
Defined.

Lemma set_then_get_throws_witness :
  Demo.available 3 = true /\
  exists s0, Strip Demo.available Demo.uninit 1 = Normal s0 /\
    (setPixelColor Demo.get_rgb 0 (ColorArray 1 2 3) ;; getPixelColor 0) s0
    = (Throw TypeError_not_a_function, mkStrip [1; 2; 3] 1).
Proof.
  assert (Hav : Demo.available 3 = true) by reflexivity.
  split; [exact Hav|].
  apply (set_then_get_throws Demo.get_rgb Demo.available Demo.uninit Hav).
Defined.

(** C5 as the specification words it fails: the array [10, 300, 30]
    resolves to itself, and on a strip of three pixels [on([10,300,30])]
    does not leave pixel 0 holding (10, 300, 30): the second write is
    refused, pixel 0 holds (10, 2, 3) and the call throws. *)
Lemma on_resolved_triple_counterexample :
  ~ (forall (color : ColorInput) (r g b : Z) (s : strip),
        strip_inv s ->
        colorArray_of Demo.get_rgb color = Some (r, g, b) ->
        forall index, 0 <= index < pixelCount s ->
          pixel (buffer (snd (on Demo.get_rgb color s))) index
          = Some (r, g, b)).
Proof.
  intros Hclaim.
  assert (Hinv : strip_inv Demo.strip3) by reflexivity.
  assert (Hidx : 0 <= 0 < pixelCount Demo.strip3) by (simpl; lia).
  pose proof (Hclaim (ColorArray 10 300 30) 10 300 30 Demo.strip3
                Hinv eq_refl 0 Hidx) as Hpix.
  discriminate Hpix.
Qed.

Lemma on_sets_every_pixel_witness :
  strip_inv Demo.strip3 /\
  Demo.get_rgb "blue" = Some (0, 0, 255) /\
  byte_triple (0, 0, 255) /\
  pixelCount Demo.strip3 = 3 /\
  buffer (snd (on Demo.get_rgb (ColorString "blue") Demo.strip3))
  = filled 3 (0, 0, 255) /\
  buffer (snd (on Demo.get_rgb (ColorArray 10 20 30) Demo.strip3))
  = [10; 20; 30; 10; 20; 30; 10; 20; 30].
Proof.
  assert (Hinv : strip_inv Demo.strip3) by reflexivity.
  assert (Hblue : colorArray_of Demo.get_rgb (ColorString "blue")
                  = Some (0, 0, 255)) by reflexivity.
  assert (Hc : byte_triple (0, 0, 255)) by (unfold byte_triple, byte_range; lia).
  assert (Hn : pixelCount Demo.strip3 = 3) by reflexivity.
  destruct (on_sets_every_pixel Demo.get_rgb) as [Hgen Hthree].
  destruct (Hgen (ColorString "blue") 0 0 255 Demo.strip3 Hinv Hblue Hc)
    as (_ & _ & Hbuf & _).
  split; [exact Hinv|]. split; [exact Hblue|]. split; [exact Hc|].
  split; [exact Hn|]. split; [exact Hbuf|].
  apply (Hthree Demo.strip3 Hinv Hn).
Defined.

Lemma on_unresolvable_witness :
  Demo.get_rgb "not-a-color" = None /\
  snd (on Demo.get_rgb (ColorString "not-a-color") Demo.strip3) = Demo.strip3 /\
  fst (on Demo.get_rgb (ColorString "not-a-color") Demo.strip3)
  = Throw TypeError_null.
Proof.
  assert (H : Demo.get_rgb "not-a-color" = None) by reflexivity.
  destruct (on_unresolvable_changes_nothing
              Demo.get_rgb "not-a-color" Demo.strip3 H) as (Hs & _ & He).
  split; [exact H|]. split; [exact Hs|]. apply He. simpl. lia.
Defined.

Lemma off_all_black_witness :
  strip_inv Demo.strip3 /\
  off Demo.get_rgb Demo.strip3
  = (Normal tt, mkStrip [0; 0; 0; 0; 0; 0; 0; 0; 0] 3) /\
  off Demo.get_rgb Demo.strip3 = off_as_calls Demo.get_rgb Demo.strip3 /\
  (off Demo.get_rgb ;; off Demo.get_rgb) Demo.strip3
  = off Demo.get_rgb Demo.strip3.
Proof.
  assert (Hinv : strip_inv Demo.strip3) by reflexivity.
  destruct (off_all_black Demo.get_rgb Demo.strip3 Hinv)
    as (Hoff & _ & Hcalls & Htwice).
  split; [exact Hinv|]. split; [exact Hoff|]. split; [exact Hcalls|].
  exact Htwice.
Defined.

Lemma setPixelColor_rejects_channel_witness :
  strip_inv Demo.strip3 /\ 0 <= 1 < pixelCount Demo.strip3 /\
  ~ byte_triple (0, 300, 0) /\
  fst (setPixelColor Demo.get_rgb 1 (ColorArray 0 300 0) Demo.strip3)
  = Throw RangeError_value.
Proof.
  assert (Hinv : strip_inv Demo.strip3) by reflexivity.
  assert (Hidx : 0 <= 1 < pixelCount Demo.strip3) by (simpl; lia).
  assert (Hc : ~ byte_triple (0, 300, 0))
    by (unfold byte_triple, byte_range; lia).
  split; [exact Hinv|]. split; [exact Hidx|]. split; [exact Hc|].
  apply (setPixelColor_rejects_channel Demo.get_rgb 1 0 300 0 Demo.strip3
           Hinv Hidx Hc).
Defined.

Lemma setPixelColor_frame_witness :
  strip_inv Demo.strip3 /\ 0 <= 1 < pixelCount Demo.strip3 /\
  fst (setPixelColor Demo.get_rgb 1 (ColorString "blue") Demo.strip3)
  = Normal tt /\
  Buffer.get_index 6
    (buffer (snd (setPixelColor Demo.get_rgb 1 (ColorString "blue") Demo.strip3)))
  = Buffer.get_index 6 (buffer Demo.strip3).
Proof.
  assert (Hinv : strip_inv Demo.strip3) by reflexivity.
  assert (Hidx : 0 <= 1 < pixelCount Demo.strip3) by (simpl; lia).
  assert (Hok : fst (setPixelColor Demo.get_rgb 1 (ColorString "blue")
                       Demo.strip3) = Normal tt) by reflexivity.
  destruct (setPixelColor_frame Demo.get_rgb 1 (ColorString "blue")
              Demo.strip3 Hinv Hidx Hok) as (_ & _ & Hframe).
  split; [exact Hinv|]. split; [exact Hidx|]. split; [exact Hok|].
  apply Hframe; lia.
Defined.


(** * Further properties of the methods *)

(** ** The buffer around one pixel *)

Lemma buffer_at_pixel (buf : Buffer.t) (index n : Z) :
  Z.of_nat (length buf) = n * 3 -> 0 <= index < n ->
  exists pre x y z rest,
    buf = pre ++ x :: y :: z :: rest /\ Z.of_nat (length pre) = index * 3.
Proof.
  intros Hlen Hidx.
  pose proof (take_drop (Z.to_nat (index * 3)) buf) as Hsplit.
  assert (Hpre : length (take (Z.to_nat (index * 3)) buf)
                 = Z.to_nat (index * 3)) by (apply length_take_le; lia).
  pose proof (length_drop buf (Z.to_nat (index * 3))) as Hrest.
  destruct (drop (Z.to_nat (index * 3)) buf) as [|x [|y [|z rest]]];
    simpl in Hrest; try lia.
  exists (take (Z.to_nat (index * 3)) buf), x, y, z, rest.
  split; [symmetry; exact Hsplit | lia].
Qed.

Lemma pixel_middle (pre : list Z) (x y z : Z) (rest : list Z) (index : Z) :
  Z.of_nat (length pre) = index * 3 ->
  pixel (pre ++ x :: y :: z :: rest) index = Some (x, y, z).
Proof.
  intros Hpre. unfold pixel, Buffer.get_index.
  destruct (Z.leb_spec 0 (index * 3)); [|lia].
  destruct (Z.leb_spec 0 (index * 3 + 1)); [|lia].
  destruct (Z.leb_spec 0 (index * 3 + 2)); [|lia].
  replace (Z.to_nat (index * 3)) with (length pre + 0)%nat by lia.
  replace (Z.to_nat (index * 3 + 1)) with (length pre + 1)%nat by lia.
  replace (Z.to_nat (index * 3 + 2)) with (length pre + 2)%nat by lia.
  rewrite !lookup_app_r by lia.
  replace (length pre + 0 - length pre)%nat with 0%nat by lia.
  replace (length pre + 1 - length pre)%nat with 1%nat by lia.
  replace (length pre + 2 - length pre)%nat with 2%nat by lia.
  reflexivity.
Qed.

(** A pixel that holds a triple lies inside the buffer. *)
Lemma pixel_Some_split (buf : Buffer.t) (index : Z) (c : rgb) :
  pixel buf index = Some c ->
  exists pre rest,
    buf = pre ++ c.1.1 :: c.1.2 :: c.2 :: rest /\
    Z.of_nat (length pre) = index * 3.
Proof.
  unfold pixel. intros H.
  destruct (Buffer.get_index (index * 3) buf) as [x|] eqn:Hx; [|discriminate].
  destruct (Buffer.get_index (index * 3 + 1) buf) as [y|] eqn:Hy; [|discriminate].
  destruct (Buffer.get_index (index * 3 + 2) buf) as [z|] eqn:Hz; [|discriminate].
  simpl in H. injection H as <-. simpl.
  unfold Buffer.get_index in *.
  destruct (Z.leb_spec 0 (index * 3)); [|discriminate].
  destruct (Z.leb_spec 0 (index * 3 + 1)); [|discriminate].
  destruct (Z.leb_spec 0 (index * 3 + 2)); [|discriminate].
  pose proof (lookup_lt_Some _ _ _ Hz) as Hlt.
  pose proof (take_drop (Z.to_nat (index * 3)) buf) as Hsplit.
  assert (Hpre : length (take (Z.to_nat (index * 3)) buf)
                 = Z.to_nat (index * 3)) by (apply length_take_le; lia).
  pose proof (length_drop buf (Z.to_nat (index * 3))) as Hrest.
  rewrite <- Hsplit in Hx, Hy, Hz.
  destruct (drop (Z.to_nat (index * 3)) buf) as [|x' [|y' [|z' rest]]];
    simpl in Hrest; try lia.
  rewrite lookup_app_r in Hx, Hy, Hz by lia.
  rewrite Hpre in Hx, Hy, Hz.
  replace (Z.to_nat (index * 3) - Z.to_nat (index * 3))%nat
    with 0%nat in Hx by lia.
  replace (Z.to_nat (index * 3 + 1) - Z.to_nat (index * 3))%nat
    with 1%nat in Hy by lia.
  replace (Z.to_nat (index * 3 + 2) - Z.to_nat (index * 3))%nat
    with 2%nat in Hz by lia.
  simpl in Hx, Hy, Hz. injection Hx as ->. injection Hy as ->. injection Hz as ->.
  exists (take (Z.to_nat (index * 3)) buf), rest.
  split; [symmetry; exact Hsplit | lia].
Qed.

(** A pixel reads only its own three offsets. *)
Lemma pixel_same_outside (index j : Z) (s s' : strip) :
  j <> index -> same_outside (offsets_of index) s s' ->
  pixel (buffer s') j = pixel (buffer s) j.
Proof.
  intros Hne [_ Hout]. unfold pixel.
  rewrite !Hout by (unfold offsets_of; lia). reflexivity.
Qed.

(** A write that returns was given a byte and an offset of the buffer. *)
Lemma buffer_writeUInt8_returns (value offset x : Z) (s s' : strip) :
  buffer_writeUInt8 value offset s = (Normal x, s') ->
  byte_range value /\ 0 <= offset < Z.of_nat (length (buffer s)).
Proof.
  unfold buffer_writeUInt8, Buffer.writeUInt8. intros H.
  destruct (decide (byte_range value)) as [Hv|Hv];
    [|rewrite (not_byte_range_check _ Hv) in H; discriminate].
  split; [exact Hv|].
  rewrite (byte_range_check _ Hv) in H.
  destruct (Z_lt_le_dec offset 0) as [Hneg|Hpos];
    [rewrite get_index_outside in H by lia; discriminate|].
  destruct (Z_lt_le_dec offset (Z.of_nat (length (buffer s)))) as [Hin|Hout];
    [lia | rewrite get_index_outside in H by lia; discriminate].
Qed.

(** ** One pixel *)

Section OnePixel.

Variable get_rgb : string -> option rgb.

(** The three writes of a call that returns. *)
Lemma setPixelColor_returns (index : Z) (color : ColorInput) (s : strip) :
  fst (setPixelColor get_rgb index color s) = Normal tt ->
  storable get_rgb color /\
  0 <= index * 3 /\ index * 3 + 2 < Z.of_nat (length (buffer s)).
Proof.
  intros H.
  destruct (colorArray_of get_rgb color) as [[[r g] b]|] eqn:Hc;
    [|rewrite (setPixelColor_null get_rgb index color s Hc) in H; discriminate].
  unfold setPixelColor in H. rewrite Hc in H. unfold_M. simpl in H.
  destruct (buffer_writeUInt8 r (index * 3) s) as [[x1|e1] s1] eqn:H1;
    [|discriminate].
  destruct (buffer_writeUInt8 g (index * 3 + 1) s1) as [[x2|e2] s2] eqn:H2;
    [|discriminate].
  destruct (buffer_writeUInt8 b (index * 3 + 2) s2) as [[x3|e3] s3] eqn:H3;
    [|discriminate].
  destruct (buffer_writeUInt8_returns _ _ _ _ _ H1) as [Hr [Hlo _]].
  destruct (buffer_writeUInt8_returns _ _ _ _ _ H2) as [Hg _].
  destruct (buffer_writeUInt8_returns _ _ _ _ _ H3) as [Hb [_ Hhi]].
  pose proof (buffer_writeUInt8_shape r (index * 3) s) as [_ Hl1].
  pose proof (buffer_writeUInt8_shape g (index * 3 + 1) s1) as [_ Hl2].
  rewrite H1 in Hl1. rewrite H2 in Hl2. simpl in Hl1, Hl2.
  split; [exists r, g, b; split; [exact Hc | unfold byte_triple; auto]|].
  split; [exact Hlo | lia].
Qed.

(** X1: at an index of the strip, [setPixelColor] with a color that
    resolves to a triple of bytes returns, the pixel at the index then
    holds the triple, and every other pixel holds what it held. *)
Theorem setPixelColor_sets_pixel
        (index : Z) (color : ColorInput) (r g b : Z) (s : strip) :
  strip_inv s -> 0 <= index < pixelCount s ->
  colorArray_of get_rgb color = Some (r, g, b) -> byte_triple (r, g, b) ->
  fst (setPixelColor get_rgb index color s) = Normal tt /\
  pixel (buffer (snd (setPixelColor get_rgb index color s))) index
  = Some (r, g, b) /\
  (forall j, j <> index ->
     pixel (buffer (snd (setPixelColor get_rgb index color s))) j
     = pixel (buffer s) j).
Proof.
  intros Hinv Hidx Hc Hbytes.
  split; [|split].
  - rewrite (setPixelColor_stores get_rgb index color r g b); auto;
      [lia | unfold strip_inv in Hinv; lia].
  - destruct s as [buf n]. unfold strip_inv in Hinv. simpl in *.
    destruct (buffer_at_pixel buf index n Hinv Hidx)
      as (pre & x & y & z & rest & -> & Hpre).
    rewrite (setPixelColor_middle get_rgb index color r g b); auto.
    apply pixel_middle. exact Hpre.
  - intros j Hj. apply (pixel_same_outside index); [exact Hj|].
    apply setPixelColor_outside.
Qed.

(** X2: on a strip, [setPixelColor(index, color)] returns exactly when the
    index is one of the strip and the color resolves to a triple of
    bytes; in every other case it throws. *)
Theorem setPixelColor_returns_iff (index : Z) (color : ColorInput) (s : strip) :
  strip_inv s ->
  fst (setPixelColor get_rgb index color s) = Normal tt
  <-> (0 <= index < pixelCount s /\ storable get_rgb color).
Proof.
  intros Hinv. split.
  - intros H. destruct (setPixelColor_returns index color s H) as (Hc & Hlo & Hhi).
    split; [unfold strip_inv in Hinv; lia | exact Hc].
  - intros [Hidx (r & g & b & Hc & Hbytes)].
    rewrite (setPixelColor_stores get_rgb index color r g b); auto;
      [lia | unfold strip_inv in Hinv; lia].
Qed.

(** X3: a failing call is not undone.  At an index of the strip, when the
    first channel is a byte and the second is not, [setPixelColor] throws
    the range error on the value after it has stored the first channel;
    when only the third is not a byte, after it has stored the first
    two. *)
Theorem setPixelColor_partial_write
        (index : Z) (color : ColorInput) (r g b : Z) (s : strip) :
  strip_inv s -> 0 <= index < pixelCount s ->
  colorArray_of get_rgb color = Some (r, g, b) -> byte_range r ->
  (~ byte_range g ->
   setPixelColor get_rgb index color s
   = (Throw RangeError_value,
      mkStrip (<[Z.to_nat (index * 3) := r]> (buffer s)) (pixelCount s))) /\
  (byte_range g -> ~ byte_range b ->
   setPixelColor get_rgb index color s
   = (Throw RangeError_value,
      mkStrip (<[Z.to_nat (index * 3 + 1) := g]>
                 (<[Z.to_nat (index * 3) := r]> (buffer s)))
              (pixelCount s))).
Proof.
  intros Hinv Hidx Hc Hr. unfold strip_inv in Hinv.
  unfold setPixelColor. rewrite Hc. unfold_M. simpl. unfold buffer_writeUInt8.
  rewrite (writeUInt8_stores r) by first [assumption | lia]. simpl.
  split.
  - intros Hg. rewrite (writeUInt8_bad_value _ _ _ Hg). reflexivity.
  - intros Hg Hb.
    rewrite (writeUInt8_stores g)
      by first [assumption | rewrite ?length_insert; lia]. simpl.
    rewrite (writeUInt8_bad_value _ _ _ Hb). reflexivity.
Qed.

End OnePixel.

(** ** Two calls *)

Ltac swap_inserts i j := rewrite (list_insert_insert_ne _ i j) by lia.

Section TwoCalls.

Variable get_rgb : string -> option rgb.

(** X4: the last write wins.  Two calls of [setPixelColor] at the same
    index of the strip, each with a color that resolves to bytes, leave
    the strip as the second call alone does. *)
Theorem setPixelColor_last_write_wins
        (index : Z) (color1 color2 : ColorInput) (s : strip) :
  strip_inv s -> 0 <= index < pixelCount s ->
  storable get_rgb color1 -> storable get_rgb color2 ->
  (setPixelColor get_rgb index color1 ;; setPixelColor get_rgb index color2) s
  = setPixelColor get_rgb index color2 s.
Proof.
  intros Hinv Hidx (r1 & g1 & b1 & Hc1 & Hb1) (r2 & g2 & b2 & Hc2 & Hb2).
  destruct s as [buf n]. unfold strip_inv in Hinv. simpl in *.
  destruct (buffer_at_pixel buf index n Hinv Hidx)
    as (pre & x & y & z & rest & -> & Hpre).
  unfold mbind, M_bind.
  rewrite (setPixelColor_middle get_rgb index color1 r1 g1 b1); auto.
  rewrite !(setPixelColor_middle get_rgb index color2 r2 g2 b2); auto.
Qed.

(** X5: a pixel that already holds the color is left alone: the call
    returns and the strip is the one it started from. *)
Theorem setPixelColor_same_color
        (index : Z) (color : ColorInput) (r g b : Z) (s : strip) :
  colorArray_of get_rgb color = Some (r, g, b) -> byte_triple (r, g, b) ->
  pixel (buffer s) index = Some (r, g, b) ->
  setPixelColor get_rgb index color s = (Normal tt, s).
Proof.
  intros Hc Hbytes Hpix. destruct s as [buf n]. simpl in Hpix.
  destruct (pixel_Some_split buf index (r, g, b) Hpix)
    as (pre & rest & -> & Hpre).
  simpl. apply (setPixelColor_middle get_rgb index color r g b); auto.
Qed.

(** X6: writes to two different pixels of the strip can be made in either
    order. *)
Theorem setPixelColor_commute
        (index1 index2 : Z) (color1 color2 : ColorInput) (s : strip) :
  strip_inv s ->
  0 <= index1 < pixelCount s -> 0 <= index2 < pixelCount s ->
  index1 <> index2 ->
  storable get_rgb color1 -> storable get_rgb color2 ->
  (setPixelColor get_rgb index1 color1 ;; setPixelColor get_rgb index2 color2) s
  = (setPixelColor get_rgb index2 color2 ;; setPixelColor get_rgb index1 color1) s.
Proof.
  intros Hinv Hidx1 Hidx2 Hne
         (r1 & g1 & b1 & Hc1 & Hb1) (r2 & g2 & b2 & Hc2 & Hb2).
  unfold strip_inv in Hinv. unfold mbind, M_bind.
  rewrite (setPixelColor_stores get_rgb index1 color1 r1 g1 b1 s);
    auto; try lia.
  rewrite (setPixelColor_stores get_rgb index2 color2 r2 g2 b2 s);
    auto; try lia.
  rewrite (setPixelColor_stores get_rgb index2 color2 r2 g2 b2);
    auto; try (simpl; rewrite ?length_insert; lia).
  rewrite (setPixelColor_stores get_rgb index1 color1 r1 g1 b1);
    auto; try (simpl; rewrite ?length_insert; lia).
  simpl. f_equal. f_equal.
  swap_inserts (Z.to_nat (index2 * 3)) (Z.to_nat (index1 * 3 + 2)).
  swap_inserts (Z.to_nat (index2 * 3 + 1)) (Z.to_nat (index1 * 3 + 2)).
  swap_inserts (Z.to_nat (index2 * 3 + 2)) (Z.to_nat (index1 * 3 + 2)).
  swap_inserts (Z.to_nat (index2 * 3)) (Z.to_nat (index1 * 3 + 1)).
  swap_inserts (Z.to_nat (index2 * 3 + 1)) (Z.to_nat (index1 * 3 + 1)).
  swap_inserts (Z.to_nat (index2 * 3 + 2)) (Z.to_nat (index1 * 3 + 1)).
  swap_inserts (Z.to_nat (index2 * 3)) (Z.to_nat (index1 * 3)).
  swap_inserts (Z.to_nat (index2 * 3 + 1)) (Z.to_nat (index1 * 3)).
  swap_inserts (Z.to_nat (index2 * 3 + 2)) (Z.to_nat (index1 * 3)).
  reflexivity.
Qed.

End TwoCalls.

(** ** The whole strip *)

Section WholeStrip.

Variable get_rgb : string -> option rgb.

(** When the first pixel cannot be set, [on] ends there. *)
Lemma on_first_throw (color : ColorInput) (e : exn) (s : strip) :
  0 < pixelCount s ->
  fst (setPixelColor get_rgb 0 color s) = Throw e ->
  on get_rgb color s = setPixelColor get_rgb 0 color s.
Proof.
  intros Hn H. unfold on.
  destruct (Z.to_nat (pixelCount s)) as [|k] eqn:Hk; [lia|].
  simpl. unfold mbind, M_bind.
  destruct (setPixelColor get_rgb 0 color s) as [[[]|e'] s1];
    [discriminate | reflexivity].
Qed.

(** X8: [on(color)] forgets what was there.  When the color resolves to
    bytes, [on(color)] after any sequence of calls on a strip gives the
    outcome and the strip it gives without them; so does [off()]. *)
Theorem on_erases_history (color : ColorInput) (calls : list call) (s : strip) :
  strip_inv s -> storable get_rgb color ->
  on get_rgb color (fold_left (perform get_rgb) calls s) = on get_rgb color s /\
  off get_rgb (fold_left (perform get_rgb) calls s) = off get_rgb s.
Proof.
  intros Hinv (r & g & b & Hc & Hbytes).
  destruct (lifetime_inv get_rgb calls s Hinv) as [Hinv' Hn].
  split.
  - rewrite (on_fills get_rgb color r g b _ Hinv' Hc Hbytes).
    rewrite (on_fills get_rgb color r g b _ Hinv Hc Hbytes).
    rewrite Hn. reflexivity.
  - rewrite (off_fills get_rgb _ Hinv'), (off_fills get_rgb _ Hinv).
    rewrite Hn. reflexivity.
Qed.

(** X9: with a color that does not resolve to bytes, [on(color)] on a
    strip of at least one pixel is the call [setPixelColor(0, color)]: it
    throws what that call throws, leaves the strip that call leaves, and
    no pixel after the first is touched. *)
Theorem on_stops_at_first_pixel (color : ColorInput) (s : strip) :
  strip_inv s -> 0 < pixelCount s -> ~ storable get_rgb color ->
  on get_rgb color s = setPixelColor get_rgb 0 color s /\
  (exists e, fst (on get_rgb color s) = Throw e) /\
  (forall j, j <> 0 ->
     pixel (buffer (snd (on get_rgb color s))) j = pixel (buffer s) j).
Proof.
  intros Hinv Hn Hbad.
  destruct (fst (setPixelColor get_rgb 0 color s)) as [[]|e] eqn:H0.
  - exfalso. apply Hbad.
    apply (setPixelColor_returns get_rgb 0 color s H0).
  - pose proof (on_first_throw color e s Hn H0) as Hon.
    split; [exact Hon|]. rewrite Hon.
    split; [exists e; exact H0|].
    intros j Hj. apply (pixel_same_outside 0); [exact Hj|].
    apply setPixelColor_outside.
Qed.

(** X10: on a strip, [on(color)] returns exactly when the strip has no
    pixel or the color resolves to bytes. *)
Theorem on_returns_iff (color : ColorInput) (s : strip) :
  strip_inv s ->
  fst (on get_rgb color s) = Normal tt
  <-> (pixelCount s = 0 \/ storable get_rgb color).
Proof.
  intros Hinv. split.
  - intros H.
    destruct (Z.eq_dec (pixelCount s) 0) as [Hz|Hnz]; [left; exact Hz|].
    right. assert (Hn : 0 < pixelCount s) by (unfold strip_inv in Hinv; lia).
    destruct (fst (setPixelColor get_rgb 0 color s)) as [[]|e] eqn:H0.
    + apply (setPixelColor_returns get_rgb 0 color s H0).
    + rewrite (on_first_throw color e s Hn H0), H0 in H. discriminate.
  - intros [Hz|(r & g & b & Hc & Hbytes)].
    + unfold on. rewrite Hz. reflexivity.
    + rewrite (on_fills get_rgb color r g b s Hinv Hc Hbytes). reflexivity.
Qed.

End WholeStrip.

(** ** The further properties at work on a strip of three pixels *)

Lemma setPixelColor_sets_pixel_witness :
  strip_inv Demo.strip3 /\ 0 <= 1 < pixelCount Demo.strip3 /\
  byte_triple (0, 0, 255) /\
  pixel (buffer (snd (setPixelColor Demo.get_rgb 1 (ColorString "blue")
                        Demo.strip3))) 1 = Some (0, 0, 255) /\
  pixel (buffer (snd (setPixelColor Demo.get_rgb 1 (ColorString "blue")
                        Demo.strip3))) 2 = pixel (buffer Demo.strip3) 2.
Proof.
  assert (Hinv : strip_inv Demo.strip3) by reflexivity.
  assert (Hidx : 0 <= 1 < pixelCount Demo.strip3) by (simpl; lia).
  assert (Hc : byte_triple (0, 0, 255)) by (unfold byte_triple, byte_range; lia).
  destruct (setPixelColor_sets_pixel Demo.get_rgb 1 (ColorString "blue")
              0 0 255 Demo.strip3 Hinv Hidx eq_refl Hc) as (_ & Hpix & Hothers).
  split; [exact Hinv|]. split; [exact Hidx|]. split; [exact Hc|].
  split; [exact Hpix | apply Hothers; lia].
Defined.

Lemma setPixelColor_returns_iff_witness :
  strip_inv Demo.strip3 /\
  (fst (setPixelColor Demo.get_rgb 1 (ColorString "blue") Demo.strip3)
   = Normal tt
   <-> (0 <= 1 < pixelCount Demo.strip3
        /\ storable Demo.get_rgb (ColorString "blue"))).
Proof.
  assert (Hinv : strip_inv Demo.strip3) by reflexivity.
  split; [exact Hinv|].
  apply (setPixelColor_returns_iff Demo.get_rgb 1 (ColorString "blue")
           Demo.strip3 Hinv).
Defined.

Lemma setPixelColor_partial_write_witness :
  strip_inv Demo.strip3 /\ 0 <= 1 < pixelCount Demo.strip3 /\
  byte_range 10 /\ ~ byte_range 300 /\
  setPixelColor Demo.get_rgb 1 (ColorArray 10 300 30) Demo.strip3
  = (Throw RangeError_value, mkStrip [1; 2; 3; 10; 5; 6; 7; 8; 9] 3).
Proof.
  assert (Hinv : strip_inv Demo.strip3) by reflexivity.
  assert (Hidx : 0 <= 1 < pixelCount Demo.strip3) by (simpl; lia).
  assert (Hr : byte_range 10) by (unfold byte_range; lia).
  assert (Hg : ~ byte_range 300) by (unfold byte_range; lia).
  destruct (setPixelColor_partial_write Demo.get_rgb 1 (ColorArray 10 300 30)
              10 300 30 Demo.strip3 Hinv Hidx eq_refl Hr) as [Hsecond _].
  split; [exact Hinv|]. split; [exact Hidx|]. split; [exact Hr|].
  split; [exact Hg|]. apply (Hsecond Hg).
Defined.

Lemma blue_storable : storable Demo.get_rgb (ColorString "blue").
Proof.
  exists 0, 0, 255. split; [reflexivity|]. unfold byte_triple, byte_range. lia.
Defined.

Lemma array_storable : storable Demo.get_rgb (ColorArray 10 20 30).
Proof.
  exists 10, 20, 30. split; [reflexivity|]. unfold byte_triple, byte_range. lia.
Defined.

Lemma setPixelColor_last_write_wins_witness :
  strip_inv Demo.strip3 /\ 0 <= 1 < pixelCount Demo.strip3 /\
  (setPixelColor Demo.get_rgb 1 (ColorString "blue") ;;
   setPixelColor Demo.get_rgb 1 (ColorArray 10 20 30)) Demo.strip3
  = setPixelColor Demo.get_rgb 1 (ColorArray 10 20 30) Demo.strip3.
Proof.
  assert (Hinv : strip_inv Demo.strip3) by reflexivity.
  assert (Hidx : 0 <= 1 < pixelCount Demo.strip3) by (simpl; lia).
  split; [exact Hinv|]. split; [exact Hidx|].
  apply (setPixelColor_last_write_wins Demo.get_rgb 1 (ColorString "blue")
           (ColorArray 10 20 30) Demo.strip3 Hinv Hidx
           blue_storable array_storable).
Defined.

Lemma setPixelColor_same_color_witness :
  byte_triple (4, 5, 6) /\ pixel (buffer Demo.strip3) 1 = Some (4, 5, 6) /\
  setPixelColor Demo.get_rgb 1 (ColorArray 4 5 6) Demo.strip3
  = (Normal tt, Demo.strip3).
Proof.
  assert (Hc : byte_triple (4, 5, 6)) by (unfold byte_triple, byte_range; lia).
  assert (Hpix : pixel (buffer Demo.strip3) 1 = Some (4, 5, 6)) by reflexivity.
  split; [exact Hc|]. split; [exact Hpix|].
  apply (setPixelColor_same_color Demo.get_rgb 1 (ColorArray 4 5 6) 4 5 6
           Demo.strip3 eq_refl Hc Hpix).
Defined.

Lemma setPixelColor_commute_witness :
  strip_inv Demo.strip3 /\
  0 <= 0 < pixelCount Demo.strip3 /\ 0 <= 2 < pixelCount Demo.strip3 /\
  0 <> 2 /\
  (setPixelColor Demo.get_rgb 0 (ColorString "blue") ;;
   setPixelColor Demo.get_rgb 2 (ColorArray 10 20 30)) Demo.strip3
  = (setPixelColor Demo.get_rgb 2 (ColorArray 10 20 30) ;;
     setPixelColor Demo.get_rgb 0 (ColorString "blue")) Demo.strip3.
Proof.
  assert (Hinv : strip_inv Demo.strip3) by reflexivity.
  assert (Hidx0 : 0 <= 0 < pixelCount Demo.strip3) by (simpl; lia).
  assert (Hidx2 : 0 <= 2 < pixelCount Demo.strip3) by (simpl; lia).
  assert (Hne : 0 <> 2) by lia.
  split; [exact Hinv|]. split; [exact Hidx0|]. split; [exact Hidx2|].
  split; [exact Hne|].
  apply (setPixelColor_commute Demo.get_rgb 0 2 (ColorString "blue")
           (ColorArray 10 20 30) Demo.strip3 Hinv Hidx0 Hidx2 Hne
           blue_storable array_storable).
Defined.

Lemma on_erases_history_witness :
  strip_inv Demo.strip3 /\
  on Demo.get_rgb (ColorString "blue")
     (fold_left (perform Demo.get_rgb)
        [Call_setPixelColor 1 (ColorArray 7 300 0); Call_off] Demo.strip3)
  = on Demo.get_rgb (ColorString "blue") Demo.strip3.
Proof.
  assert (Hinv : strip_inv Demo.strip3) by reflexivity.
  split; [exact Hinv|].
  apply (on_erases_history Demo.get_rgb (ColorString "blue")
           [Call_setPixelColor 1 (ColorArray 7 300 0); Call_off]
           Demo.strip3 Hinv blue_storable).
Defined.

Lemma not_a_color_not_storable :
  ~ storable Demo.get_rgb (ColorString "not-a-color").
Proof. intros (r & g & b & Hc & _). discriminate Hc. Defined.

Lemma on_stops_at_first_pixel_witness :
  strip_inv Demo.strip3 /\ 0 < pixelCount Demo.strip3 /\
  on Demo.get_rgb (ColorArray 10 300 30) Demo.strip3
  = setPixelColor Demo.get_rgb 0 (ColorArray 10 300 30) Demo.strip3 /\
  on Demo.get_rgb (ColorString "not-a-color") Demo.strip3
  = setPixelColor Demo.get_rgb 0 (ColorString "not-a-color") Demo.strip3.
Proof.
  assert (Hinv : strip_inv Demo.strip3) by reflexivity.
  assert (Hn : 0 < pixelCount Demo.strip3) by (simpl; lia).
  assert (Hbad : ~ storable Demo.get_rgb (ColorArray 10 300 30)).
  { intros (r & g & b & Hc & Hbytes). injection Hc as <- <- <-.
    unfold byte_triple, byte_range in Hbytes. lia. }
  split; [exact Hinv|]. split; [exact Hn|]. split.
  - apply (on_stops_at_first_pixel Demo.get_rgb (ColorArray 10 300 30)
             Demo.strip3 Hinv Hn Hbad).
  - apply (on_stops_at_first_pixel Demo.get_rgb (ColorString "not-a-color")
             Demo.strip3 Hinv Hn not_a_color_not_storable).
Defined.

Lemma on_returns_iff_witness :
  strip_inv Demo.strip3 /\
  (fst (on Demo.get_rgb (ColorString "blue") Demo.strip3) = Normal tt
   <-> (pixelCount Demo.strip3 = 0
        \/ storable Demo.get_rgb (ColorString "blue"))).
Proof.
  assert (Hinv : strip_inv Demo.strip3) by reflexivity.
  split; [exact Hinv|].
  apply (on_returns_iff Demo.get_rgb (ColorString "blue") Demo.strip3 Hinv).
Defined.
